(** * fissile: role manifests, release loading and development versions

    A shallow embedding of [model/roles.go] and [model/release.go]
    (package [model] of fissile), together with the parts of the Go
    standard library they call, and the properties of the loader and of
    the signature engine that the specification states.

    Conventions.  A Go [string] and a Go [[]byte] are sequences of bytes;
    both are embedded as [string] (a list of 8-bit [ascii]).  A Go map
    is a [gmap]; where the code ranges over a map the iteration order is
    an explicit list.  A function returning [(T, error)] returns an
    [outcome T], which also records a run-time panic. *)

From Stdlib Require Import String Ascii ZArith List Permutation Sorted Lia Bool.
From stdpp Require Import base option list gmap strings sorting.

Local Open Scope stdpp_scope.

(** ** Results of fallible calls *)

(** Go's [error] values.  [fmt.Errorf] builds an error from its message;
    the errors of [os], [io] and [yaml] are kept by the name of the
    operation and the file they concern. *)
Inductive error : Type :=
  | Errorf (msg : string)
  | PathError (op path : string)
  | YamlError (msg : string).


Inductive outcome (A : Type) : Type :=
  | Return (a : A)
  | Fail (e : error)
  | Panic.
Arguments Return {A} a.
Arguments Fail {A} e.
Arguments Panic {A}.

#[global] Instance outcome_bind : MBind outcome := λ A B k x,
  match x with
  | Return a => k a
  | Fail e => Fail e
  | Panic => Panic
  end.

(** A [for] loop over a slice whose body may return early with an error:
    the first failing element decides. *)
Fixpoint forEach {A B} (f : A → outcome B) (l : list A) : outcome (list B) :=
  match l with
  | [] => Return []
  | a :: l' => b ← f a; bs ← forEach f l'; Return (b :: bs)
  end.

(** ** Package [strings] *)

Module strings.

(** [a < b] on Go strings: bytewise lexicographic order. *)
Definition Less (a b : string) : bool := String.ltb a b.


End strings.

(** ** Package [sort] *)

Module sort.

(** What [sort.Sort] asks of the [Less] method of a [sort.Interface]. *)
Record StrictWeakOrder {A} (less : A → A → bool) : Prop := {
  less_irrefl : ∀ x, less x x = false;
  less_trans : ∀ x y z, less x y = true → less y z = true → less x z = true;
  notless_trans : ∀ x y z, less x y = false → less y z = false → less x z = false
}.

(** The result of sorting in ascending order: no element is less than
    the one before it. *)
Definition Ascending {A} (less : A → A → bool) : list A → Prop :=
  Sorted (λ x y, less y x = false).

(** The documented behaviour of [sort.Sort]: the slice is rearranged
    into ascending order as determined by [Less]; the sort is not
    guaranteed to be stable, so nothing is promised about the order of
    elements neither of which is less than the other. *)
Class Algorithm : Type :=
  Sort : ∀ {A}, (A → A → bool) → list A → list A.

Record Correct (alg : Algorithm) : Prop := {
  Sort_Permutation : ∀ A (less : A → A → bool) l, Sort less l ≡ₚ l;
  Sort_Ascending : ∀ A (less : A → A → bool) l,
    StrictWeakOrder less → Ascending less (Sort less l)
}.

(** [insertionSort(data, 0, n)], the algorithm [sort.Sort] runs on a
    short slice: element [i] is swapped towards the front while it is
    less than its left neighbour.  [front] is the part already
    processed, nearest neighbour first. *)
Fixpoint swapDown {A} (less : A → A → bool) (x : A) (front : list A) : list A :=
  match front with
  | [] => [x]
  | y :: front' =>
      if less x y then y :: swapDown less x front' else x :: y :: front'
  end.

Definition insertionSort : Algorithm := λ A less l,
  reverse (fold_left (λ front x, swapDown less x front) l []).

(** [sort.Strings(a)]. *)
Definition Strings `{Algorithm} (a : list string) : list string :=
  Sort strings.Less a.

End sort.

(** ** Packages [crypto/sha1] and [encoding/hex] *)

Module sha1.

Definition bytes (s : string) : list Z :=
  map (λ c, Z.of_N (N_of_ascii c)) (list_ascii_of_string s).

Definition add32 (x y : Z) : Z := ((x + y) mod 2 ^ 32)%Z.

Definition rotl (n x : Z) : Z :=
  (Z.lor (Z.shiftl x n mod 2 ^ 32) (Z.shiftr x (32 - n)))%Z.

Definition not32 (x : Z) : Z := Z.lxor x 4294967295%Z.

(** The message followed by the bit 1, zero bytes up to 56 modulo 64,
    and the length in bits as 8 big-endian bytes. *)
Definition pad (m : list Z) : list Z :=
  let n := length m in
  let zeros := (Z.to_nat ((55 - Z.of_nat n) mod 64))%Z in
  let bits := (8 * Z.of_nat n)%Z in
  m ++ [128%Z] ++ replicate zeros 0%Z ++
  map (λ i, (Z.shiftr bits (8 * Z.of_nat (7 - i)) mod 256)%Z) (seq 0 8).

Fixpoint words (bs : list Z) : list Z :=
  match bs with
  | a :: b :: c :: d :: bs' =>
      (Z.shiftl a 24 + Z.shiftl b 16 + Z.shiftl c 8 + d)%Z :: words bs'
  | _ => []
  end.

Fixpoint schedule (n : nat) (w : list Z) : list Z :=
  match n with
  | 0 => w
  | S n' =>
      let t := length w in
      let at_ i := nth (t - i) w 0%Z in
      let x := Z.lxor (Z.lxor (at_ 3) (at_ 8)) (Z.lxor (at_ 14) (at_ 16)) in
      schedule n' (w ++ [rotl 1 x])
  end.

Definition state : Type := Z * Z * Z * Z * Z.

Definition round (st : state) (tw : nat * Z) : state :=
  let '(a, b, c, d, e) := st in
  let '(t, w) := tw in
  let '(f, k) :=
    if t <? 20 then (Z.lor (Z.land b c) (Z.land (not32 b) d), 1518500249%Z)
    else if t <? 40 then (Z.lxor (Z.lxor b c) d, 1859775393%Z)
    else if t <? 60 then
      (Z.lor (Z.lor (Z.land b c) (Z.land b d)) (Z.land c d), 2400959708%Z)
    else (Z.lxor (Z.lxor b c) d, 3395469782%Z) in
  (add32 (add32 (add32 (add32 (rotl 5 a) f) e) k) w, a, rotl 30 b, c, d).

Definition block (h : state) (w16 : list Z) : state :=
  let w := schedule 64 w16 in
  let '(a, b, c, d, e) := fold_left round (zip (seq 0 80) w) h in
  let '(h0, h1, h2, h3, h4) := h in
  (add32 h0 a, add32 h1 b, add32 h2 c, add32 h3 d, add32 h4 e).

Fixpoint blocks (n : nat) (h : state) (ws : list Z) : state :=
  match n with
  | 0 => h
  | S n' => blocks n' (block h (take 16 ws)) (drop 16 ws)
  end.

Definition init : state :=
  (1732584193, 4023233417, 2562383102, 271733878, 3285377520)%Z.

Definition word_bytes (w : Z) : string :=
  string_of_list_ascii
    (map (λ i, ascii_of_N (Z.to_N (Z.shiftr w (8 * Z.of_nat (3 - i)) mod 256)))
         (seq 0 4)).

(** A [hash.Hash] is the sequence of bytes written to it so far. *)
Definition New : string := "".
Definition Write (h : string) (p : string) : string := h +:+ p.

(** [h.Sum(nil)]: the 20 bytes of the digest. *)
Definition Sum (h : string) : string :=
  let ws := words (pad (bytes h)) in
  let '(h0, h1, h2, h3, h4) := blocks (length ws / 16) init ws in
  word_bytes h0 +:+ word_bytes h1 +:+ word_bytes h2 +:+ word_bytes h3
    +:+ word_bytes h4.

End sha1.

Module hex.

Definition digit (n : N) : ascii :=
  ascii_of_N (if (n <? 10)%N then 48 + n else 87 + n).

(** [hex.EncodeToString(src)]: two lower-case digits per byte. *)
Fixpoint EncodeToString (src : string) : string :=
  match src with
  | EmptyString => EmptyString
  | String c src' =>
      let n := N_of_ascii c in
      String (digit (n / 16)) (String (digit (n mod 16)) (EncodeToString src'))
  end.

End hex.

Global Arguments sha1.Sum : simpl never.
Global Arguments hex.EncodeToString : simpl never.

(** ** Package [path/filepath] and map iteration *)

Module filepath.

(** [filepath.IsAbs(path)] on Unix. *)
Definition IsAbs (path : string) : bool := String.prefix "/" path.

(** [filepath.Dir], [filepath.Join] (of two elements) and
    [filepath.Base]: the lexical path functions of the platform. *)
Class Impl : Type := {
  Dir : string → string;
  Join : string → string → string;
  Base : string → string
}.

End filepath.

Module maps.

(** [for k, v := range m]: the order in which the run time yields the
    entries of a map.  The language leaves it unspecified; every entry
    is yielded once. *)
Class Range : Type :=
  range : ∀ {V}, gmap string V → list (string * V).

Definition Correct (rng : Range) : Prop :=
  ∀ V (m : gmap string V), range m ≡ₚ map_to_list m.

(** [for k, v := range src { dst[k] = v }]. *)
Definition copyInto `{Range} {V} (src dst : gmap string V) : gmap string V :=
  fold_left (λ d kv, <[kv.1 := kv.2]> d) (range src) dst.

End maps.

(** ** The data model *)

Module Package.
(** Modelled from the spec: the [Package] struct of package.go, which
    is not among the sources.  Only its scalar fields are kept. *)
Record t : Type := mk {
  Name : string;
  Version : string;
  Fingerprint : string;
  SHA1 : string;
  Path : string
}.
End Package.

(** Modelled from the spec: [Packages] of package.go and its [Less]
    method.  The spec sorts packages "by package identity", and the
    identity of a package is its name. *)
Definition Packages : Type := list Package.t.

Module Packages.
Definition Less (a b : Package.t) : bool :=
  strings.Less (Package.Name a) (Package.Name b).
End Packages.

Module Job.
(** Modelled from the spec: the [Job] struct of job.go, which is not
    among the sources, with the fields roles.go and release.go read. *)
Record t : Type := mk {
  Name : string;
  SHA1 : string;
  Packages : Packages
}.
End Job.

Definition Jobs : Type := list Job.t.

Module configuration.
(** [Templates] is [None] for the nil map. *)
Record t : Type := mk {
  Templates : option (gmap string string)
}.
End configuration.

Module roleJob.
Record t : Type := mk {
  Name : string;
  ReleaseName : string
}.
End roleJob.

Module Role.
(** [Configuration] is [None] for the nil pointer.  [rolesManifest] is
    the pointer to the owning manifest; a role reaches two things
    through it, the path of the manifest file and the manifest's
    configuration, and [None] is the nil pointer. *)
Record t : Type := mk {
  Name : string;
  Jobs : Jobs;
  EnvironScripts : list string;
  Scripts : list string;
  PostConfigScripts : list string;
  Type_ : string;
  JobNameList : list roleJob.t;
  Configuration : option configuration.t;
  rolesManifest : option (string * option configuration.t)
}.
End Role.

Definition Roles : Type := list Role.t.

Module Roles.
Definition Less (a b : Role.t) : bool :=
  match String.compare (Role.Name a) (Role.Name b) with
  | Lt => true
  | _ => false
  end.
End Roles.

Module RoleManifest.
Record t : Type := mk {
  Roles : Roles;
  Configuration : option configuration.t;
  manifestFilePath : string
}.
End RoleManifest.

Module ReleaseLicense.
(** Modelled from the spec: the [ReleaseLicense] struct, which is not
    among the sources.  [Files] is [None] before [loadLicense] makes
    the map. *)
Record t : Type := mk {
  SHA1 : string;
  ActualSHA1 : string;
  Files : option (gmap string string)
}.
End ReleaseLicense.

Module Release.
Record t : Type := mk {
  Jobs : Jobs;
  Packages : Packages;
  License : ReleaseLicense.t;
  Name : string;
  Path : string
}.
End Release.

Definition boshTaskType : string := "bosh-task".
Definition boshType : string := "bosh".

(** Dereferencing a pointer: nil panics. *)
Definition deref {A} (p : option A) : outcome A :=
  match p with
  | Some a => Return a
  | None => Panic
  end.

(** A loop that threads a value through a body that may fail. *)
Fixpoint foldM {A B} (f : B → A → outcome B) (b : B) (l : list A) : outcome B :=
  match l with
  | [] => Return b
  | a :: l' => b' ← f b a; foldM f b' l'
  end.

(** ** release.go: looking up a job *)

(** [LookupJob], a method of [Release]. *)
Fixpoint lookupJobIn (jobs : Jobs) (jobName : string) : outcome Job.t :=
  match jobs with
  | [] => Fail (Errorf ("Cannot find job " +:+ jobName +:+ " in release"))
  | job :: jobs' =>
      if String.eqb (Job.Name job) jobName then Return job
      else lookupJobIn jobs' jobName
  end.

Definition LookupJob (r : Release.t) (jobName : string) : outcome Job.t :=
  lookupJobIn (Release.Jobs r) jobName.

(** ** Package [yaml] *)

Module yaml.
(** [yaml.Unmarshal(in, &rolesManifest)]: the exported fields of the
    manifest decoded from the document, or the decoder's error. *)
Class Decoder : Type :=
  Unmarshal : string → outcome (Roles * option configuration.t).
End yaml.

(** ** roles.go *)

Section roles.

Context {alg : sort.Algorithm} {rng : maps.Range} {fp : filepath.Impl}
        {dec : yaml.Decoder}.

(** The file system: the content of every file that can be opened. *)
Variable fs : gmap string string.

(** [ioutil.ReadFile(filename)]. *)
Definition ReadFile (filename : string) : outcome string :=
  match fs !! filename with
  | Some contents => Return contents
  | None => Fail (PathError "open" filename)
  end.

(** The first loop of [LoadRoleManifest]: the table of releases by
    name. *)
Definition mapReleases (releases : list Release.t)
    : outcome (gmap string Release.t) :=
  foldM (λ (mappedReleases : gmap string Release.t) release,
           match mappedReleases !! Release.Name release with
           | Some _ =>
               Fail (Errorf ("Error - release " +:+ Release.Name release
                             +:+ " has been loaded more than once"))
           | None => Return (<[Release.Name release := release]> mappedReleases)
           end)
        ∅ releases.

Definition isOtherType (role : Role.t) : bool :=
  negb (String.eqb (Role.Type_ role) "")
  && negb (String.eqb (Role.Type_ role) boshTaskType)
  && negb (String.eqb (Role.Type_ role) boshType).

(** [roles[i]]: an index out of range panics. *)
Definition index {A} (l : list A) (i : nat) : outcome A := deref (l !! i).

(** The loop [for i := len(Roles) - 1; i >= 0; i--] that removes the
    roles of another type; [n] is [i + 1]. *)
Fixpoint removeOtherTypes (n : nat) (roles : Roles) : outcome Roles :=
  match n with
  | 0 => Return roles
  | S i =>
      role ← index roles i;
      if isOtherType role
      then removeOtherTypes i (take i roles ++ drop (S i) roles)
      else removeOtherTypes i roles
  end.

(** [(r *Role) calculateRoleConfigurationTemplates()]. *)
Definition calculateRoleConfigurationTemplates (r : Role.t) : outcome Role.t :=
  let conf := default (configuration.mk None) (Role.Configuration r) in
  let templates := default ∅ (configuration.Templates conf) in
  m ← deref (Role.rolesManifest r);
  global ← deref m.2;
  let roleConfigs :=
    maps.copyInto (default ∅ (configuration.Templates global)) ∅ in
  let roleConfigs := maps.copyInto templates roleConfigs in
  Return (Role.mk (Role.Name r) (Role.Jobs r) (Role.EnvironScripts r)
            (Role.Scripts r) (Role.PostConfigScripts r) (Role.Type_ r)
            (Role.JobNameList r)
            (Some (configuration.mk (Some roleConfigs)))
            (Role.rolesManifest r)).

(** The body of the loop over [role.JobNameList]. *)
Definition resolveJob (mappedReleases : gmap string Release.t)
    (role : Role.t) (roleJob : roleJob.t) : outcome Job.t :=
  match mappedReleases !! roleJob.ReleaseName roleJob with
  | None =>
      Fail (Errorf ("Error - release " +:+ roleJob.ReleaseName roleJob
                    +:+ " has not been loaded and is referenced by job "
                    +:+ roleJob.Name roleJob +:+ " in role " +:+ Role.Name role))
  | Some release => LookupJob release (roleJob.Name roleJob)
  end.

(** The body of the loop over the surviving roles. *)
Definition resolveRole (mappedReleases : gmap string Release.t)
    (manifest : string * option configuration.t) (role : Role.t)
    : outcome Role.t :=
  jobs ← forEach (resolveJob mappedReleases role) (Role.JobNameList role);
  calculateRoleConfigurationTemplates
    (Role.mk (Role.Name role) jobs (Role.EnvironScripts role)
       (Role.Scripts role) (Role.PostConfigScripts role) (Role.Type_ role)
       (Role.JobNameList role) (Role.Configuration role) (Some manifest)).

(** [LoadRoleManifest(manifestFilePath, releases)]. *)
Definition LoadRoleManifest (manifestFilePath : string)
    (releases : list Release.t) : outcome RoleManifest.t :=
  manifestContents ← ReadFile manifestFilePath;
  mappedReleases ← mapReleases releases;
  parsed ← yaml.Unmarshal manifestContents;
  roles ← removeOtherTypes (length parsed.1) parsed.1;
  let conf := default (configuration.mk None) parsed.2 in
  let conf :=
    configuration.mk (Some (default ∅ (configuration.Templates conf))) in
  roles ← forEach (resolveRole mappedReleases (manifestFilePath, Some conf)) roles;
  Return (RoleManifest.mk roles (Some conf) manifestFilePath).

(** [(r *Role) GetScriptPaths()]. *)
Definition GetScriptPaths (r : Role.t) : outcome (gmap string string) :=
  foldM (λ result scriptList,
           foldM (λ (result : gmap string string) script,
                    if filepath.IsAbs script then Return result
                    else
                      m ← deref (Role.rolesManifest r);
                      Return (<[script :=
                                 filepath.Join (filepath.Dir m.1) script]> result))
                 result scriptList)
        ∅ [Role.EnvironScripts r; Role.Scripts r; Role.PostConfigScripts r].

(** [(r *Role) GetScriptSignatures()]. *)
Definition GetScriptSignatures (r : Role.t) : outcome string :=
  paths ← GetScriptPaths r;
  let scripts := sort.Strings (map snd (maps.range paths)) in
  hasher ← foldM (λ hasher filename,
                    let hasher := sha1.Write hasher filename in
                    f ← ReadFile filename;
                    Return (sha1.Write hasher f))
                 sha1.New scripts;
  Return (hex.EncodeToString (sha1.Sum hasher)).

(** [(r *Role) GetTemplateSignatures()]. *)
Definition GetTemplateSignatures (r : Role.t) : outcome string :=
  conf ← deref (Role.Configuration r);
  let templates :=
    map (λ kv, kv.1 +:+ ": " +:+ kv.2)
        (maps.range (default ∅ (configuration.Templates conf))) in
  let templates := sort.Strings templates in
  let hasher := fold_left sha1.Write templates sha1.New in
  Return (hex.EncodeToString (sha1.Sum hasher)).

(** [fmt.Sprintf("%s\n%s", a, b)]. *)
Definition Sprintf_s_nl_s (a b : string) : string :=
  a +:+ String "010"%char b.

(** The string [roleSignature] of [GetRoleDevVersion] when the final
    hasher is created. *)
Definition roleSignature (r : Role.t) : outcome string :=
  let '(roleSignature, packages) :=
    fold_left (λ '(roleSignature, packages) job,
                 (Sprintf_s_nl_s roleSignature (Job.SHA1 job),
                  packages ++ Job.Packages job))
              (Role.Jobs r) ("", []) in
  let packages := sort.Sort Packages.Less packages in
  let roleSignature :=
    fold_left (λ roleSignature pkg,
                 Sprintf_s_nl_s roleSignature (Package.SHA1 pkg))
              packages roleSignature in
  sig ← GetScriptSignatures r;
  let roleSignature := Sprintf_s_nl_s roleSignature sig in
  match Role.Configuration r with
  | Some (configuration.mk (Some _)) =>
      sig ← GetTemplateSignatures r;
      Return (Sprintf_s_nl_s roleSignature sig)
  | _ => Return roleSignature
  end.

(** [(r *Role) GetRoleDevVersion()]. *)
Definition GetRoleDevVersion (r : Role.t) : outcome string :=
  roleSignature ← roleSignature r;
  let hasher := sha1.Write sha1.New roleSignature in
  Return (hex.EncodeToString (sha1.Sum hasher)).

(** [(m *RoleManifest) GetRoleManifestDevPackageVersion(extra)]. *)
Definition GetRoleManifestDevPackageVersion (m : RoleManifest.t)
    (extra : string) : outcome string :=
  let roles := [] ++ RoleManifest.Roles m in
  let roles := sort.Sort Roles.Less roles in
  let hasher := sha1.Write sha1.New extra in
  hasher ← foldM (λ hasher role,
                    version ← GetRoleDevVersion role;
                    Return (sha1.Write hasher version))
                 hasher roles;
  Return (hex.EncodeToString (sha1.Sum hasher)).

End roles.

(** ** Vocabulary of the statements *)

(** The text that [fmt.Sprintf("%s\n%s", acc, x)] adds when it is applied
    to each element of [l] in turn: every element preceded by a newline. *)
Fixpoint lines (l : list string) : string :=
  match l with
  | [] => ""
  | x :: l' => String "010"%char x +:+ lines l'
  end.

(** The packages that [GetRoleDevVersion] collects: those of every job,
    job after job, a package listed by several jobs once for each. *)
Definition collectedPackages (r : Role.t) : Packages :=
  flat_map Job.Packages (Role.Jobs r).

(** The string [roleSignature] as it stands after the loop over the
    sorted packages. *)
Definition jobsAndPackages `{sort.Algorithm} (r : Role.t) : string :=
  lines (Job.SHA1 <$> Role.Jobs r)
  +:+ lines (Package.SHA1 <$> sort.Sort Packages.Less (collectedPackages r)).

(** A role that declares no script. *)
Definition noScripts (r : Role.t) : Prop :=
  Role.EnvironScripts r = [] ∧ Role.Scripts r = []
  ∧ Role.PostConfigScripts r = [].

(** A slice of packages in ascending order of name. *)
Definition sortedByName (packages : Packages) : Prop :=
  StronglySorted (λ a b, String.le (Package.Name a) (Package.Name b)) packages.

(** The template mapping of a role, when neither the configuration nor
    the mapping is nil. *)
Definition configuredTemplates (r : Role.t) : option (gmap string string) :=
  conf ← Role.Configuration r; configuration.Templates conf.

(** The digest of the empty input. *)
Definition emptyDigest : string := "da39a3ee5e6b4b0d3255bfef95601890afd80709".

(** A role of a type the loader keeps: no declared type, ["bosh"] or
    ["bosh-task"]. *)
Definition keptType (role : Role.t) : Prop :=
  Role.Type_ role = "" ∨ Role.Type_ role = "bosh" ∨ Role.Type_ role = "bosh-task".

#[global] Instance keptType_dec role : Decision (keptType role).
Proof. unfold keptType. apply _. Defined.

(** A loaded role carries what the manifest declares for it. *)
Definition sameDeclaration (declared loaded : Role.t) : Prop :=
  Role.Name loaded = Role.Name declared
  ∧ Role.Type_ loaded = Role.Type_ declared
  ∧ Role.JobNameList loaded = Role.JobNameList declared
  ∧ Role.EnvironScripts loaded = Role.EnvironScripts declared
  ∧ Role.Scripts loaded = Role.Scripts declared
  ∧ Role.PostConfigScripts loaded = Role.PostConfigScripts declared.

(** The error [LoadRoleManifest] returns for a release given twice. *)
Definition loadedMoreThanOnce (name : string) : error :=
  Errorf ("Error - release " +:+ name +:+ " has been loaded more than once").





(** ** A concrete platform for the examples *)

Module example.

(** Map iteration in the order of the keys' encoding. *)
Definition rng : maps.Range := λ V m, map_to_list m.

(** The part of a path after its last slash. *)
Fixpoint lastElement (acc s : string) : string :=
  match s with
  | EmptyString => acc
  | String c s' =>
      if Ascii.eqb c "/" then lastElement "" s'
      else lastElement (acc +:+ String c "") s'
  end.

(** The part of a path before its last slash. *)
Fixpoint beforeLastSlash (s : string) : option string :=
  match s with
  | EmptyString => None
  | String c s' =>
      match beforeLastSlash s' with
      | Some d => Some (String c d)
      | None => if Ascii.eqb c "/" then Some "" else None
      end
  end.

(** The lexical path functions on clean relative or absolute paths,
    where they agree with [path/filepath]. *)
Definition fp : filepath.Impl := {|
  filepath.Dir p :=
    match beforeLastSlash p with
    | None => "."
    | Some EmptyString => "/"
    | Some d => d
    end;
  filepath.Join a b := a +:+ "/" +:+ b;
  filepath.Base p := lastElement "" p
|}.

(** A decoder that knows the documents of a table. *)
Definition decoder (docs : gmap string (Roles * option configuration.t))
    : yaml.Decoder := λ contents,
  match docs !! contents with
  | Some parsed => Return parsed
  | None => Fail (YamlError "did not find expected node content")
  end.

End example.

(** ** Example roles *)

Module example_roles.

Definition ruby : Package.t := Package.mk "ruby" "f1" "f1" "aaaa" "/cache/aaaa".
Definition nginx : Package.t := Package.mk "nginx" "f2" "f2" "bbbb" "/cache/bbbb".

Definition api : Job.t := Job.mk "api" "1111" [ruby; nginx].
Definition worker : Job.t := Job.mk "worker" "2222" [ruby].

(** Two jobs that share the package [ruby]; no scripts, no
    configuration. *)
Definition shared : Role.t :=
  Role.mk "core" [api; worker] [] [] [] "" [] None None.

(** The same role as the loader leaves it when neither the manifest nor
    the role configures a template: an empty, non-nil mapping. *)
Definition loaded : Role.t :=
  Role.mk "core" [api; worker] [] [] [] "" []
    (Some (configuration.mk (Some ∅)))
    (Some ("/deploy/roles.yml", Some (configuration.mk (Some ∅)))).

End example_roles.

(** The bytes of several strings written one after the other. *)
Fixpoint concatenated (l : list string) : string :=
  match l with
  | [] => ""
  | x :: l' => x +:+ concatenated l'
  end.

(** A slice of roles in ascending order of name. *)
Definition rolesSortedByName (roles : Roles) : Prop :=
  StronglySorted (λ a b, String.le (Role.Name a) (Role.Name b)) roles.



Module example_manifests.

(** A second role named [core], with the job [worker] alone. *)
Definition core2 : Role.t :=
  Role.mk "core" [example_roles.worker] [] [] [] "" [] None None.

Definition router : Role.t :=
  Role.mk "router" [example_roles.api] [] [] [] "" [] None None.

Definition twoCores : RoleManifest.t :=
  RoleManifest.mk [example_roles.shared; core2] None "/deploy/roles.yml".

Definition twoCoresSwapped : RoleManifest.t :=
  RoleManifest.mk [core2; example_roles.shared] None "/deploy/roles.yml".

Definition distinct : RoleManifest.t :=
  RoleManifest.mk [router; example_roles.shared] None "/deploy/roles.yml".

Definition distinctSwapped : RoleManifest.t :=
  RoleManifest.mk [example_roles.shared; router] None "/deploy/roles.yml".




End example_manifests.

Module example_order.


Definition templates : gmap string string :=
  <["properties.nats.user" := "((NATS_USER))"]>
    (<["properties.nats.port" := "4222"]> ∅).



End example_order.

Module example_loader.

Definition torPackage : Package.t := Package.mk "tor" "f6" "f6" "eeee" "/cache/eeee".

Definition tor : Job.t := Job.mk "tor" "4444" [torPackage].
Definition new_hostname : Job.t := Job.mk "new_hostname" "5555" [torPackage].

Definition emptyLicense : ReleaseLicense.t := ReleaseLicense.mk "" "" None.

Definition torRelease : Release.t :=
  Release.mk [tor; new_hostname] [torPackage] emptyLicense "tor" "/releases/tor".

(** A manifest with a role without type, a role of type ["docker"] and a
    task role. *)
Definition declared : Roles :=
  [ Role.mk "myrole" [] [] ["myrole.sh"] [] ""
      [roleJob.mk "tor" "tor"; roleJob.mk "new_hostname" "tor"] None None;
    Role.mk "dashboard" [] [] [] [] "docker" [] None None;
    Role.mk "hostname-task" [] [] [] [] "bosh-task"
      [roleJob.mk "new_hostname" "tor"] None None ].

(** A role of type ["docker"] that refers to a job the release does not
    have. *)
Definition declaredDocker : Roles :=
  [ Role.mk "dashboard" [] [] [] [] "docker"
      [roleJob.mk "missing" "tor"] None None ].

(** A role that refers to a job the release does not have. *)
Definition declaredMissingJob : Roles :=
  [ Role.mk "myrole" [] [] [] [] "bosh"
      [roleJob.mk "missing" "tor"] None None ].

(** A role that refers to a release that is not loaded. *)
Definition declaredMissingRelease : Roles :=
  [ Role.mk "myrole" [] [] [] [] "bosh"
      [roleJob.mk "tor" "onion"] None None ].

Definition docs : gmap string (Roles * option configuration.t) :=
  <["roles: [myrole, dashboard (docker), hostname-task (bosh-task)]"
      := (declared, None)]>
  (<["roles: [dashboard (docker): tor/missing]" := (declaredDocker, None)]>
  (<["roles: [myrole: tor/missing]" := (declaredMissingJob, None)]>
  (<["roles: [myrole: onion/tor]" := (declaredMissingRelease, None)]> ∅))).

Definition fs : gmap string string :=
  <["/deploy/roles.yml"
      := "roles: [myrole, dashboard (docker), hostname-task (bosh-task)]"]>
  (<["/deploy/docker.yml" := "roles: [dashboard (docker): tor/missing]"]>
  (<["/deploy/missing-job.yml" := "roles: [myrole: tor/missing]"]>
  (<["/deploy/missing-release.yml" := "roles: [myrole: onion/tor]"]> ∅))).

Definition dec : yaml.Decoder := example.decoder docs.

End example_loader.

(** ** release.go: looking up a package *)



(** The templates a configuration declares; none for a nil configuration
    or a nil mapping. *)
Definition templatesOf (conf : option configuration.t) : gmap string string :=
  default ∅ (conf ≫= configuration.Templates).

Module example_templates.

(** A manifest with a global template set and a role that overrides one
    key and adds another. *)
Definition globalTemplates : gmap string string :=
  <["properties.nats.port" := "4222"]>
    (<["properties.nats.user" := "((NATS_USER))"]> ∅).

Definition roleTemplates : gmap string string :=
  <["properties.nats.port" := "4333"]>
    (<["properties.tor.hostname" := "((HOSTNAME))"]> ∅).

Definition declared : Roles :=
  [ Role.mk "myrole" [] [] ["/opt/start.sh"; "myrole.sh"] [] ""
      [roleJob.mk "tor" "tor"]
      (Some (configuration.mk (Some roleTemplates))) None;
    Role.mk "hostname-task" [] [] [] [] "bosh-task"
      [roleJob.mk "new_hostname" "tor"] None None ].

Definition docs : gmap string (Roles * option configuration.t) :=
  <["roles: [myrole, hostname-task]; configuration: {templates: ...}"
      := (declared, Some (configuration.mk (Some globalTemplates)))]> ∅.

Definition fs : gmap string string :=
  <["/deploy/roles.yml"
      := "roles: [myrole, hostname-task]; configuration: {templates: ...}"]>
  (<["/deploy/myrole.sh" := "#!/bin/sh"]> ∅).

Definition dec : yaml.Decoder := example.decoder docs.

End example_templates.

(** The scripts a role declares, in the order [GetScriptPaths] visits
    them. *)
Definition declaredScripts (r : Role.t) : list string :=
  Role.EnvironScripts r ++ Role.Scripts r ++ Role.PostConfigScripts r.

Module example_scripts.

(** A role with an absolute and a relative script, pointing to its
    manifest. *)
Definition myrole : Role.t :=
  Role.mk "myrole" [] [] ["/opt/start.sh"; "myrole.sh"] [] "" [] None
    (Some ("/deploy/roles.yml", None)).

End example_scripts.

(** A SHA-1 digest in hexadecimal: forty characters, each a decimal digit
    or a lower-case letter from a to f. *)
Definition isDigest (v : string) : Prop :=
  String.length v = 40
  ∧ ∀ c, c ∈ list_ascii_of_string v →
         c ∈ list_ascii_of_string "0123456789abcdef".

(** * Properties *)

(** ** SHA-1 on the test vectors of FIPS 180 *)

Example sha1_empty :
  hex.EncodeToString (sha1.Sum sha1.New) = "da39a3ee5e6b4b0d3255bfef95601890afd80709".
Proof. vm_compute. reflexivity. Qed.

Example sha1_abc :
  hex.EncodeToString (sha1.Sum (sha1.Write sha1.New "abc"))
  = "a9993e364706816aba3e25717850c26c9cd0d89d".
Proof. vm_compute. reflexivity. Qed.

Example sha1_two_blocks :
  hex.EncodeToString (sha1.Sum
    "abcdbcdecdefdefgefghfghighijhijkijkljklmklmnlmnomnopnopq")
  = "84983e441c3bd26ebaae4aa1f95129e5e54670f1".
Proof. vm_compute. reflexivity. Qed.

(** ** The order of strings and the sorting contract *)

Section string_order.

Lemma Less_not_le a b : strings.Less a b = false ↔ String.le b a.
Proof.
  unfold strings.Less, String.le, String.ltb, String.leb.
  rewrite (String.compare_antisym b a).
  destruct (String.compare a b); simpl; intuition (auto; discriminate).
Qed.

Lemma Less_lt a b : strings.Less a b = true ↔ ¬ String.le b a.
Proof. rewrite <- Less_not_le. destruct (strings.Less a b); intuition congruence. Qed.

Lemma Roles_Less_eq a b :
  Roles.Less a b = strings.Less (Role.Name a) (Role.Name b).
Proof. reflexivity. Qed.

(** Comparing a string key with [<] is a strict weak order. *)
Lemma key_StrictWeakOrder {A} (key : A → string) :
  sort.StrictWeakOrder (λ a b, strings.Less (key a) (key b)).
Proof.
  split.
  - intros x. apply Less_not_le. reflexivity.
  - intros x y z Hxy%Less_lt Hyz%Less_lt. apply Less_lt. intros Hzx.
    destruct (total String.le (key x) (key y)) as [Hle|Hle]; [|done].
    apply Hyz. by etrans.
  - intros x y z Hxy%Less_not_le Hyz%Less_not_le. apply Less_not_le. by etrans.
Qed.

(** A slice in ascending order of a string key, read with [≤]. *)
Lemma Ascending_key {A} (key : A → string) l :
  sort.Ascending (λ a b, strings.Less (key a) (key b)) l →
  StronglySorted (λ a b, String.le (key a) (key b)) l.
Proof.
  intros Hl. apply Sorted_StronglySorted.
  - intros x y z ??. by etrans.
  - induction Hl as [|x l Hs IH Hhd]; constructor; [done|].
    destruct Hhd; constructor. by apply Less_not_le.
Qed.

(** Two sorted arrangements of the same elements carry the same values
    in the same order, provided elements with equal keys carry equal
    values: the only freedom a sort has is the order of equal keys. *)
Lemma sorted_values_unique {A B} (key : A → string) (f : A → B) l1 l2 :
  StronglySorted (λ a b, String.le (key a) (key b)) l1 →
  StronglySorted (λ a b, String.le (key a) (key b)) l2 →
  l1 ≡ₚ l2 →
  (∀ a b, a ∈ l1 → b ∈ l1 → key a = key b → f a = f b) →
  f <$> l1 = f <$> l2.
Proof.
  intros H1 H2 Hp Hf.
  pose (g := λ a, (key a, f a)).
  assert (g <$> l1 = g <$> l2) as Hg.
  { apply (StronglySorted_unique_strong (λ p q : string * B, String.le p.1 q.1)).
    - intros p q [a [-> Ha]]%list_elem_of_fmap [b [-> Hb]]%list_elem_of_fmap.
      simpl. intros Hab Hba.
      assert (key a = key b) as Hk by (by apply (anti_symm String.le)).
      unfold g. rewrite Hk. f_equal. apply Hf; [done| |done].
      by rewrite Hp.
    - eapply StronglySorted_fmap; [|exact H1]. done.
    - eapply StronglySorted_fmap; [|exact H2]. done.
    - by apply fmap_Permutation. }
  apply (f_equal (fmap snd)) in Hg.
  by rewrite <- !list_fmap_compose in Hg.
Qed.

End string_order.

Section insertion_sort.

Context {A : Type} (less : A → A → bool).

Lemma swapDown_Permutation x front : sort.swapDown less x front ≡ₚ x :: front.
Proof.
  induction front as [|y front IH]; simpl; [done|].
  destruct (less x y); [|done].
  rewrite IH. apply Permutation_swap.
Qed.

Lemma insertion_fold_Permutation l front :
  fold_left (λ front x, sort.swapDown less x front) l front ≡ₚ l ++ front.
Proof.
  revert front. induction l as [|x l IH]; intros front; simpl; [done|].
  rewrite IH, swapDown_Permutation. by rewrite Permutation_middle.
Qed.

Hypothesis Hless : sort.StrictWeakOrder less.

Lemma less_asym x y : less x y = true → less y x = false.
Proof.
  intros Hxy. destruct (less y x) eqn:Hyx; [|done].
  rewrite <- (sort.less_irrefl less Hless x).
  symmetry. by eapply sort.less_trans.
Qed.

Lemma swapDown_Sorted x front :
  Sorted (λ a b, less a b = false) front →
  Sorted (λ a b, less a b = false) (sort.swapDown less x front).
Proof.
  induction 1 as [|y front Hs IH Hhd]; simpl.
  { repeat constructor. }
  destruct (less x y) eqn:Hxy.
  - constructor; [done|].
    destruct Hhd as [|z front Hyz]; simpl.
    + constructor. by apply less_asym.
    + destruct (less x z); constructor; [done|]. by apply less_asym.
  - repeat constructor; done.
Qed.

Lemma insertion_fold_Sorted l front :
  Sorted (λ a b, less a b = false) front →
  Sorted (λ a b, less a b = false)
    (fold_left (λ front x, sort.swapDown less x front) l front).
Proof.
  revert front. induction l as [|x l IH]; intros front Hs; simpl; [done|].
  by apply IH, swapDown_Sorted.
Qed.

End insertion_sort.

(** Insertion sort meets the contract of [sort.Sort]. *)
Lemma insertionSort_Correct : sort.Correct sort.insertionSort.
Proof.
  split.
  - intros A less l. unfold sort.Sort, sort.insertionSort.
    rewrite reverse_Permutation, insertion_fold_Permutation. by rewrite app_nil_r.
  - intros A less l Hless. unfold sort.Ascending, sort.Sort, sort.insertionSort.
    apply (Sorted_reverse (λ a b, less a b = false)).
    apply insertion_fold_Sorted; [done|constructor].
Qed.

(** ** Strings *)

Lemma sapp_cons x (a b : string) : String x a +:+ b = String x (a +:+ b).
Proof. reflexivity. Qed.

Lemma sapp_nil_l (b : string) : "" +:+ b = b.
Proof. reflexivity. Qed.

Lemma sapp_assoc (a b c : string) : (a +:+ b) +:+ c = a +:+ (b +:+ c).
Proof. induction a as [|x a IH]; [done|]. by rewrite !sapp_cons, IH. Qed.

Lemma sapp_nil_r (a : string) : a +:+ "" = a.
Proof. induction a as [|x a IH]; [done|]. by rewrite sapp_cons, IH. Qed.

Lemma lines_app l1 l2 : lines (l1 ++ l2) = lines l1 +:+ lines l2.
Proof.
  induction l1 as [|x l1 IH]; simpl; [done|].
  by rewrite IH, !sapp_cons, sapp_assoc.
Qed.

Lemma fold_Sprintf {A} (f : A → string) l acc :
  fold_left (λ acc x, Sprintf_s_nl_s acc (f x)) l acc = acc +:+ lines (f <$> l).
Proof.
  revert acc. induction l as [|x l IH]; intros acc; simpl.
  - by rewrite sapp_nil_r.
  - rewrite IH. unfold Sprintf_s_nl_s. by rewrite !sapp_assoc.
Qed.

(** ** The signature string of a role *)

Section role_signature.

Context {alg : sort.Algorithm} {rng : maps.Range} {fp : filepath.Impl}.
Variable fs : gmap string string.

(** The loop over the jobs: the checksums in order, the packages
    appended job after job. *)
Lemma jobs_loop jobs acc (packages : Packages) :
  fold_left (λ '(roleSignature, packages) job,
               (Sprintf_s_nl_s roleSignature (Job.SHA1 job),
                packages ++ Job.Packages job))
            jobs (acc, packages)
  = (acc +:+ lines (Job.SHA1 <$> jobs), packages ++ flat_map Job.Packages jobs).
Proof.
  revert acc packages. induction jobs as [|job jobs IH]; intros acc packages; simpl.
  - by rewrite sapp_nil_r, app_nil_r.
  - rewrite IH. unfold Sprintf_s_nl_s. by rewrite !sapp_assoc, <- app_assoc.
Qed.

Lemma roleSignature_eq r :
  roleSignature fs r =
    sig ← GetScriptSignatures fs r;
    match configuredTemplates r with
    | Some _ =>
        tsig ← GetTemplateSignatures r;
        Return (jobsAndPackages r +:+ lines [sig; tsig])
    | None => Return (jobsAndPackages r +:+ lines [sig])
    end.
Proof.
  unfold roleSignature. rewrite jobs_loop. simpl.
  rewrite fold_Sprintf. fold (collectedPackages r). fold (jobsAndPackages r).
  destruct (GetScriptSignatures fs r) as [sig| |]; simpl; [|done..].
  unfold configuredTemplates, Sprintf_s_nl_s.
  destruct (Role.Configuration r) as [[[t|]]|]; simpl;
    rewrite ?sapp_nil_r; [|done..].
  destruct (GetTemplateSignatures _) as [tsig| |]; simpl; [|done..].
  by rewrite sapp_assoc, sapp_nil_r.
Qed.

End role_signature.

Section role_signature_claims.

Context {alg : sort.Algorithm} {rng : maps.Range} {fp : filepath.Impl}.
Variable fs : gmap string string.
Hypothesis Halg : sort.Correct alg.

Lemma Sort_nil {A} (less : A → A → bool) : sort.Sort less [] = [].
Proof. apply Permutation_nil. symmetry. apply Halg. Qed.

Lemma sorted_collectedPackages r :
  sortedByName (sort.Sort Packages.Less (collectedPackages r)).
Proof.
  apply (Ascending_key Package.Name), Halg.
  apply (key_StrictWeakOrder Package.Name).
Qed.

Hypothesis Hrng : maps.Correct rng.

Lemma range_empty {V} : maps.range (∅ : gmap string V) = [].
Proof. apply Permutation_nil. rewrite (Hrng V ∅). by rewrite map_to_list_empty. Qed.

Lemma GetScriptSignatures_noScripts r :
  noScripts r → GetScriptSignatures fs r = Return emptyDigest.
Proof.
  intros (He & Hs & Hp). unfold GetScriptSignatures, GetScriptPaths.
  rewrite He, Hs, Hp. simpl. rewrite range_empty. simpl.
  unfold sort.Strings. rewrite Sort_nil. exact (f_equal Return sha1_empty).
Qed.

Lemma GetTemplateSignatures_empty r :
  configuredTemplates r = Some ∅ → GetTemplateSignatures r = Return emptyDigest.
Proof.
  unfold configuredTemplates, GetTemplateSignatures.
  destruct (Role.Configuration r) as [[[t|]]|]; simpl; [|done..].
  intros [= ->]. rewrite range_empty. simpl.
  unfold sort.Strings. rewrite Sort_nil. exact (f_equal Return sha1_empty).
Qed.

End role_signature_claims.

(** C1 (amended).  The string that [GetRoleDevVersion] hashes begins with
    the stored SHA1 of each job of the role, in the order of [Role.Jobs],
    each preceded by a newline; then comes, each preceded by a newline,
    the SHA1 of every package of the jobs' package lists taken together,
    a package once for each job that lists it, in ascending order of
    package name.  The signatures of the scripts and templates follow. *)
Theorem GetRoleDevVersion_jobs_then_packages
    (alg : sort.Algorithm) (rng : maps.Range) (fp : filepath.Impl)
    (fs : gmap string string) (r : Role.t) (version : string) :
  sort.Correct alg →
  GetRoleDevVersion fs r = Return version →
  ∃ packages tail,
    packages ≡ₚ collectedPackages r
    ∧ sortedByName packages
    ∧ roleSignature fs r =
        Return (lines (Job.SHA1 <$> Role.Jobs r)
                +:+ lines (Package.SHA1 <$> packages) +:+ tail)
    ∧ version =
        hex.EncodeToString
          (sha1.Sum (lines (Job.SHA1 <$> Role.Jobs r)
                     +:+ lines (Package.SHA1 <$> packages) +:+ tail)).
Proof.
  intros Halg Hv. unfold GetRoleDevVersion in Hv.
  destruct (roleSignature fs r) as [s| |] eqn:Hs; simpl in Hv; [|done..].
  injection Hv as <-. rewrite roleSignature_eq in Hs.
  destruct (GetScriptSignatures fs r) as [sig| |]; simpl in Hs; [|done..].
  assert (∃ tail, s = jobsAndPackages r +:+ tail) as [tail ->].
  { destruct (configuredTemplates r).
    - destruct (GetTemplateSignatures r); simpl in Hs; [|done..].
      injection Hs as <-. by eexists.
    - injection Hs as <-. by eexists. }
  exists (sort.Sort Packages.Less (collectedPackages r)), tail.
  unfold jobsAndPackages. rewrite sapp_assoc.
  split_and!; [apply Halg|by apply sorted_collectedPackages|done..].
Qed.

(** Iterating in the order of [map_to_list] is a map iteration. *)
Lemma range_map_to_list_Correct : maps.Correct example.rng.
Proof. intros V m. reflexivity. Qed.

Section role_signature_examples.

#[local] Existing Instance sort.insertionSort.
#[local] Existing Instance example.rng.
#[local] Existing Instance example.fp.

Lemma GetRoleDevVersion_jobs_then_packages_witness :
  sort.Correct sort.insertionSort
  ∧ GetRoleDevVersion ∅ example_roles.shared
    = Return "7650593247fe0bcd38759f0204a43b5b3e7eda43"
  ∧ ∃ packages tail,
      packages ≡ₚ collectedPackages example_roles.shared
      ∧ sortedByName packages
      ∧ roleSignature ∅ example_roles.shared =
          Return (lines (Job.SHA1 <$> Role.Jobs example_roles.shared)
                  +:+ lines (Package.SHA1 <$> packages) +:+ tail)
      ∧ "7650593247fe0bcd38759f0204a43b5b3e7eda43" =
          hex.EncodeToString
            (sha1.Sum (lines (Job.SHA1 <$> Role.Jobs example_roles.shared)
                       +:+ lines (Package.SHA1 <$> packages) +:+ tail)).
Proof.
  assert (GetRoleDevVersion ∅ example_roles.shared
          = Return "7650593247fe0bcd38759f0204a43b5b3e7eda43") as H
    by (vm_compute; reflexivity).
  split; [exact insertionSort_Correct|]. split; [exact H|].
  exact (GetRoleDevVersion_jobs_then_packages _ _ _ _ _ _ insertionSort_Correct H).
Defined.

(** C1, as stated: packages are deduplicated across jobs.  The jobs
    [api] and [worker] both list the package [ruby], whose SHA1 is
    "aaaa"; the hashed string carries it twice. *)
Lemma GetRoleDevVersion_package_of_two_jobs_twice :
  collectedPackages example_roles.shared
    = [example_roles.ruby; example_roles.nginx; example_roles.ruby]
  ∧ roleSignature ∅ example_roles.shared
    = Return (lines ["1111"; "2222"; "bbbb"; "aaaa"; "aaaa"; emptyDigest])
  ∧ GetRoleDevVersion ∅ example_roles.shared
    = Return (hex.EncodeToString (sha1.Sum
        (lines ["1111"; "2222"; "bbbb"; "aaaa"; "aaaa"; emptyDigest])))
  ∧ GetRoleDevVersion ∅ example_roles.shared
    ≠ Return (hex.EncodeToString (sha1.Sum
        (lines ["1111"; "2222"; "bbbb"; "aaaa"; emptyDigest]))).
Proof. split_and!; [reflexivity|vm_compute; reflexivity..|vm_compute; discriminate]. Qed.

End role_signature_examples.

(** C2 (amended).  When [GetRoleDevVersion] builds its string, the
    signature of the scripts is always appended after the jobs and
    packages, also for a role that declares no script, where it is the
    digest of the empty input.  The signature of the templates is
    appended after it exactly when neither the role's configuration nor
    its template mapping is nil; for a mapping that is empty but not nil
    it is again the digest of the empty input.  Nothing else follows. *)
Theorem roleSignature_script_and_template_signatures
    (alg : sort.Algorithm) (rng : maps.Range) (fp : filepath.Impl)
    (fs : gmap string string) (r : Role.t) (s : string) :
  sort.Correct alg → maps.Correct rng →
  roleSignature fs r = Return s →
  ∃ sig,
    GetScriptSignatures fs r = Return sig
    ∧ (noScripts r → sig = emptyDigest)
    ∧ match configuredTemplates r with
      | Some templates =>
          ∃ tsig,
            GetTemplateSignatures r = Return tsig
            ∧ (templates = ∅ → tsig = emptyDigest)
            ∧ s = jobsAndPackages r +:+ lines [sig; tsig]
      | None => s = jobsAndPackages r +:+ lines [sig]
      end.
Proof.
  intros Halg Hrng Hs. rewrite roleSignature_eq in Hs.
  destruct (GetScriptSignatures fs r) as [sig| |] eqn:Hsig; simpl in Hs; [|done..].
  exists sig. split; [done|]. split.
  { intros Hno. rewrite (GetScriptSignatures_noScripts fs Halg Hrng r Hno) in Hsig.
    congruence. }
  destruct (configuredTemplates r) as [templates|] eqn:Ht; [|by injection Hs as <-].
  destruct (GetTemplateSignatures r) as [tsig| |] eqn:Htsig; simpl in Hs; [|done..].
  exists tsig. split; [done|]. split; [|by injection Hs as <-].
  intros ->. rewrite (GetTemplateSignatures_empty Halg Hrng r Ht) in Htsig.
  congruence.
Qed.

Section role_signature_examples2.

#[local] Existing Instance sort.insertionSort.
#[local] Existing Instance example.rng.
#[local] Existing Instance example.fp.

Lemma roleSignature_script_and_template_signatures_witness :
  sort.Correct sort.insertionSort ∧ maps.Correct example.rng
  ∧ roleSignature ∅ example_roles.loaded
    = Return (lines ["1111"; "2222"; "bbbb"; "aaaa"; "aaaa";
                     emptyDigest; emptyDigest])
  ∧ ∃ sig,
      GetScriptSignatures ∅ example_roles.loaded = Return sig
      ∧ (noScripts example_roles.loaded → sig = emptyDigest)
      ∧ match configuredTemplates example_roles.loaded with
        | Some templates =>
            ∃ tsig,
              GetTemplateSignatures example_roles.loaded = Return tsig
              ∧ (templates = ∅ → tsig = emptyDigest)
              ∧ lines ["1111"; "2222"; "bbbb"; "aaaa"; "aaaa";
                       emptyDigest; emptyDigest]
                = jobsAndPackages example_roles.loaded +:+ lines [sig; tsig]
        | None =>
            lines ["1111"; "2222"; "bbbb"; "aaaa"; "aaaa";
                   emptyDigest; emptyDigest]
            = jobsAndPackages example_roles.loaded +:+ lines [sig]
        end.
Proof.
  assert (roleSignature ∅ example_roles.loaded
          = Return (lines ["1111"; "2222"; "bbbb"; "aaaa"; "aaaa";
                           emptyDigest; emptyDigest])) as H
    by (vm_compute; reflexivity).
  split; [exact insertionSort_Correct|].
  split; [exact range_map_to_list_Correct|]. split; [exact H|].
  exact (roleSignature_script_and_template_signatures _ _ _ _ _ _
           insertionSort_Correct range_map_to_list_Correct H).
Defined.

(** C2, as stated: the script signature is appended only if the role
    declares scripts.  The role [shared] declares none and has no
    configuration, yet the digest of the empty input follows its
    packages; the role [loaded] has no template, and a second digest
    follows. *)
Lemma roleSignature_signature_without_scripts :
  noScripts example_roles.shared
  ∧ roleSignature ∅ example_roles.shared
    = Return (jobsAndPackages example_roles.shared +:+ lines [emptyDigest])
  ∧ roleSignature ∅ example_roles.shared
    ≠ Return (jobsAndPackages example_roles.shared)
  ∧ configuredTemplates example_roles.loaded = Some ∅
  ∧ roleSignature ∅ example_roles.loaded
    = Return (jobsAndPackages example_roles.loaded
              +:+ lines [emptyDigest; emptyDigest]).
Proof.
  split_and!; [by repeat split|vm_compute; reflexivity|vm_compute; discriminate
              |reflexivity|vm_compute; reflexivity].
Qed.

End role_signature_examples2.

(** ** Loops *)

Lemma forEach_fmap {A B} (f : A → outcome B) l1 l2 :
  f <$> l1 = f <$> l2 → forEach f l1 = forEach f l2.
Proof.
  revert l2. induction l1 as [|a l1 IH]; intros [|b l2] Heq; try done.
  injection Heq as Hab Hl. simpl. rewrite Hab, (IH l2 Hl). done.
Qed.

Lemma foldM_Write {A} (f : A → outcome string) l hasher :
  foldM (λ hasher a, version ← f a; Return (sha1.Write hasher version)) hasher l
  = (versions ← forEach f l; Return (hasher +:+ concatenated versions)).
Proof.
  revert hasher. induction l as [|a l IH]; intros hasher; simpl.
  - by rewrite sapp_nil_r.
  - destruct (f a) as [v| |]; simpl; [|done..].
    rewrite IH. destruct (forEach f l) as [vs| |]; simpl; [|done..].
    unfold sha1.Write. by rewrite sapp_assoc.
Qed.

(** ** The development version of a manifest *)

Section manifest_version.

Context {alg : sort.Algorithm} {rng : maps.Range} {fp : filepath.Impl}.
Variable fs : gmap string string.
Hypothesis Halg : sort.Correct alg.

Lemma sorted_Roles (roles : Roles) :
  rolesSortedByName (sort.Sort Roles.Less roles).
Proof.
  apply (Ascending_key Role.Name), Halg.
  apply (key_StrictWeakOrder Role.Name).
Qed.

Lemma GetRoleManifestDevPackageVersion_eq m extra :
  GetRoleManifestDevPackageVersion fs m extra =
    (versions ← forEach (GetRoleDevVersion fs)
                  (sort.Sort Roles.Less (RoleManifest.Roles m));
     Return (hex.EncodeToString (sha1.Sum (extra +:+ concatenated versions)))).
Proof.
  unfold GetRoleManifestDevPackageVersion. simpl. rewrite foldM_Write.
  by destruct (forEach _ _).
Qed.

End manifest_version.

(** C3 (amended).  [GetRoleManifestDevPackageVersion(salt)] is the
    hex-encoded SHA-1 of the salt followed by the development version of
    each role, the roles taken in ascending order of name; it fails when
    the version of a role fails.  The result is the same for every order
    of the roles in the manifest provided roles that share a name have the
    same development version: the order of roles of one name is not
    decided by the sort. *)
Theorem GetRoleManifestDevPackageVersion_sorted_by_name
    (alg : sort.Algorithm) (rng : maps.Range) (fp : filepath.Impl)
    (fs : gmap string string) (m : RoleManifest.t) (extra : string) :
  sort.Correct alg →
  (∃ roles,
     roles ≡ₚ RoleManifest.Roles m
     ∧ rolesSortedByName roles
     ∧ GetRoleManifestDevPackageVersion fs m extra =
         (versions ← forEach (GetRoleDevVersion fs) roles;
          Return (hex.EncodeToString
                    (sha1.Sum (extra +:+ concatenated versions)))))
  ∧ ∀ m' : RoleManifest.t,
      RoleManifest.Roles m' ≡ₚ RoleManifest.Roles m →
      (∀ a b, a ∈ RoleManifest.Roles m → b ∈ RoleManifest.Roles m →
              Role.Name a = Role.Name b →
              GetRoleDevVersion fs a = GetRoleDevVersion fs b) →
      GetRoleManifestDevPackageVersion fs m' extra
      = GetRoleManifestDevPackageVersion fs m extra.
Proof.
  intros Halg. split.
  - exists (sort.Sort Roles.Less (RoleManifest.Roles m)).
    split_and!; [apply Halg|by apply sorted_Roles|].
    by apply GetRoleManifestDevPackageVersion_eq.
  - intros m' Hperm Hsame.
    rewrite !GetRoleManifestDevPackageVersion_eq.
    rewrite (forEach_fmap (GetRoleDevVersion fs)
               (sort.Sort Roles.Less (RoleManifest.Roles m'))
               (sort.Sort Roles.Less (RoleManifest.Roles m))); [done|].
    symmetry. apply (sorted_values_unique Role.Name).
    + by apply sorted_Roles.
    + by apply sorted_Roles.
    + rewrite !(sort.Sort_Permutation alg Halg). by symmetry.
    + intros a b Ha Hb. apply Hsame.
      * by rewrite <- (sort.Sort_Permutation alg Halg _ Roles.Less).
      * by rewrite <- (sort.Sort_Permutation alg Halg _ Roles.Less).
Qed.

Section manifest_version_examples.

#[local] Existing Instance sort.insertionSort.
#[local] Existing Instance example.rng.
#[local] Existing Instance example.fp.

Lemma GetRoleManifestDevPackageVersion_sorted_by_name_witness :
  sort.Correct sort.insertionSort
  ∧ GetRoleManifestDevPackageVersion ∅ example_manifests.distinct "salt"
    = Return "9b38189c4d0de15e401ba6d5b13f2dd42797adec"
  ∧ GetRoleManifestDevPackageVersion ∅ example_manifests.distinctSwapped "salt"
    = GetRoleManifestDevPackageVersion ∅ example_manifests.distinct "salt".
Proof.
  split; [exact insertionSort_Correct|]. split; [vm_compute; reflexivity|].
  apply (GetRoleManifestDevPackageVersion_sorted_by_name
           _ _ _ ∅ example_manifests.distinct "salt" insertionSort_Correct).
  - apply Permutation_swap.
  - intros a b Ha Hb Hname. simpl in Ha, Hb.
    apply elem_of_cons in Ha as [->|Ha], Hb as [->|Hb];
      try apply list_elem_of_singleton in Ha as ->;
      try apply list_elem_of_singleton in Hb as ->;
      first [reflexivity|discriminate Hname].
Defined.

(** C3, as stated: the result does not depend on the order of the roles
    in the manifest.  Two roles are named [core]; the sort compares only
    the names and leaves the two in the order of the manifest. *)
Lemma GetRoleManifestDevPackageVersion_roles_of_one_name :
  RoleManifest.Roles example_manifests.twoCoresSwapped
    ≡ₚ RoleManifest.Roles example_manifests.twoCores
  ∧ GetRoleManifestDevPackageVersion ∅ example_manifests.twoCores "salt"
    = Return "ed0571a6b18b959e0b58318bc7798489baaa1d95"
  ∧ GetRoleManifestDevPackageVersion ∅ example_manifests.twoCoresSwapped "salt"
    = Return "9fb5bbd34bbf716948792868875d9b3ffe0876f5".
Proof.
  split_and!; [apply Permutation_swap|vm_compute; reflexivity..].
Qed.

End manifest_version_examples.

(** ** Independence of the order of packages and of map iteration *)

Section order_independence.

Context {alg : sort.Algorithm} {fp : filepath.Impl}.
Variable fs : gmap string string.
Hypothesis Halg : sort.Correct alg.


Variables rng rng' : maps.Range.
Hypothesis Hrng : maps.Correct rng.
Hypothesis Hrng' : maps.Correct rng'.







End order_independence.



Section order_examples.

#[local] Existing Instance sort.insertionSort.
#[local] Existing Instance example.fp.



End order_examples.

(** ** The role manifest loader *)

Lemma forEach_Return {A B} (f : A → outcome B) l bs :
  forEach f l = Return bs → Forall2 (λ a b, f a = Return b) l bs.
Proof.
  revert bs. induction l as [|a l IH]; intros bs; simpl.
  - intros [= <-]. constructor.
  - destruct (f a) as [b| |] eqn:Hb; simpl; [|done..].
    destruct (forEach f l) as [bs'| |]; simpl; [|done..].
    intros [= <-]. constructor; [done|]. by apply IH.
Qed.

Lemma isOtherType_keptType role : isOtherType role = false ↔ keptType role.
Proof.
  unfold isOtherType, keptType, boshTaskType, boshType.
  destruct (String.eqb_spec (Role.Type_ role) "") as [->|H1]; simpl; [tauto|].
  destruct (String.eqb_spec (Role.Type_ role) "bosh-task") as [->|H2]; simpl;
    [tauto|].
  destruct (String.eqb_spec (Role.Type_ role) "bosh") as [->|H3]; simpl;
    [tauto|].
  split; [discriminate|]. intros [?|[?|?]]; contradiction.
Qed.

(** The removal loop never indexes out of range, and what it leaves is
    the kept roles in their order. *)
Lemma removeOtherTypes_filter n (roles : Roles) :
  n ≤ length roles →
  removeOtherTypes n roles = Return (filter keptType (take n roles) ++ drop n roles).
Proof.
  revert roles. induction n as [|i IH]; intros roles Hn; simpl.
  { reflexivity. }
  destruct (lookup_lt_is_Some_2 roles i) as [role Hrole]; [lia|].
  unfold index. rewrite Hrole. simpl.
  rewrite (take_S_r _ _ _ Hrole), filter_app.
  assert (length (take i roles) = i) as Htake by (rewrite length_take; lia).
  destruct (isOtherType role) eqn:Hother.
  - rewrite IH by (rewrite length_app, length_take, length_drop; lia).
    rewrite take_app_length' by done. rewrite drop_app_length' by done.
    rewrite filter_cons_False, filter_nil, app_nil_r; [done|].
    rewrite <- isOtherType_keptType. congruence.
  - rewrite IH by lia. rewrite (drop_S _ _ _ Hrole).
    rewrite filter_cons_True by (by apply isOtherType_keptType).
    rewrite filter_nil. by rewrite <- app_assoc.
Qed.

Lemma removeOtherTypes_all (roles : Roles) :
  removeOtherTypes (length roles) roles = Return (filter keptType roles).
Proof.
  rewrite removeOtherTypes_filter by done.
  by rewrite firstn_all, drop_all, app_nil_r.
Qed.

Section loader.

Context {rng : maps.Range} {dec : yaml.Decoder}.
Variable fs : gmap string string.

Lemma calculateRoleConfigurationTemplates_sameDeclaration r r' :
  calculateRoleConfigurationTemplates r = Return r' → sameDeclaration r r'.
Proof.
  unfold calculateRoleConfigurationTemplates.
  destruct (Role.rolesManifest r) as [[path [global|]]|]; simpl; [|done..].
  intros [= <-]. by repeat split.
Qed.

Lemma resolveRole_sameDeclaration mapped manifest role role' :
  resolveRole mapped manifest role = Return role' → sameDeclaration role role'.
Proof.
  unfold resolveRole.
  destruct (forEach _ _) as [jobs| |]; simpl; [|done..].
  intros H%calculateRoleConfigurationTemplates_sameDeclaration. exact H.
Qed.

End loader.

(** C5.  After [LoadRoleManifest] succeeds, the roles of the manifest
    it returns are the roles of the parsed document whose type is absent
    (empty), ["bosh"] or ["bosh-task"], every one of them, in the order of
    the document; the roles of any other type are gone. *)
Theorem LoadRoleManifest_keeps_bosh_roles
    (rng : maps.Range) (dec : yaml.Decoder) (fs : gmap string string)
    (manifestFilePath : string) (releases : list Release.t)
    (m : RoleManifest.t) :
  LoadRoleManifest fs manifestFilePath releases = Return m →
  ∃ contents parsed,
    fs !! manifestFilePath = Some contents
    ∧ yaml.Unmarshal contents = Return parsed
    ∧ Forall2 sameDeclaration (filter keptType parsed.1) (RoleManifest.Roles m).
Proof.
  unfold LoadRoleManifest, ReadFile.
  destruct (fs !! manifestFilePath) as [contents|]; simpl; [|done].
  destruct (mapReleases releases) as [mapped| |]; simpl; [|done..].
  destruct (yaml.Unmarshal contents) as [parsed| |] eqn:Hparsed; simpl; [|done..].
  rewrite removeOtherTypes_all. simpl.
  destruct (forEach _ _) as [roles| |] eqn:Hroles; simpl; [|done..].
  intros [= <-]. exists contents, parsed. split_and!; [done..|]. simpl.
  apply forEach_Return in Hroles.
  eapply Forall2_impl; [exact Hroles|].
  intros role role' H. exact (resolveRole_sameDeclaration _ _ _ _ H).
Qed.

Section loader_examples.

#[local] Existing Instance example.rng.
#[local] Existing Instance example_loader.dec.

Lemma LoadRoleManifest_keeps_bosh_roles_witness :
  ∃ m,
    LoadRoleManifest example_loader.fs "/deploy/roles.yml"
      [example_loader.torRelease] = Return m
    ∧ Role.Name <$> RoleManifest.Roles m = ["myrole"; "hostname-task"]
    ∧ ∃ contents parsed,
        example_loader.fs !! "/deploy/roles.yml" = Some contents
        ∧ yaml.Unmarshal contents = Return parsed
        ∧ Forall2 sameDeclaration (filter keptType parsed.1)
            (RoleManifest.Roles m).
Proof.
  destruct (LoadRoleManifest example_loader.fs "/deploy/roles.yml"
              [example_loader.torRelease]) as [m| |] eqn:Hm;
    [|vm_compute in Hm; discriminate Hm..].
  exists m. split; [reflexivity|]. split.
  - vm_compute in Hm. injection Hm as <-. reflexivity.
  - exact (LoadRoleManifest_keeps_bosh_roles _ _ _ _ _ _ Hm).
Defined.

End loader_examples.

(** ** The table of releases *)

Section release_table.

Let step (mappedReleases : gmap string Release.t) (release : Release.t)
    : outcome (gmap string Release.t) :=
  match mappedReleases !! Release.Name release with
  | Some _ => Fail (loadedMoreThanOnce (Release.Name release))
  | None => Return (<[Release.Name release := release]> mappedReleases)
  end.

Lemma step_None acc release :
  acc !! Release.Name release = None →
  step acc release = Return (<[Release.Name release := release]> acc).
Proof. intros H. unfold step. by rewrite H. Qed.

Lemma step_Some acc release x :
  acc !! Release.Name release = Some x →
  step acc release = Fail (loadedMoreThanOnce (Release.Name release)).
Proof. intros H. unfold step. by rewrite H. Qed.

(** The loop fails at the first release whose name is already in the
    table. *)
Lemma mapReleases_loop_Fail before release after acc :
  NoDup (Release.Name <$> before) →
  (∀ r, r ∈ before → acc !! Release.Name r = None) →
  Release.Name release ∈ Release.Name <$> before
    ∨ is_Some (acc !! Release.Name release) →
  foldM step acc (before ++ release :: after)
  = Fail (loadedMoreThanOnce (Release.Name release)).
Proof.
  revert acc. induction before as [|b before IH]; intros acc Hnd Hacc Hin.
  - destruct Hin as [Hin|[x Hx]]; [by apply elem_of_nil in Hin|].
    change (foldM step acc ([] ++ release :: after))
      with (acc' ← step acc release; foldM step acc' after).
    by rewrite (step_Some acc release x Hx).
  - change (foldM step acc ((b :: before) ++ release :: after))
      with (acc' ← step acc b; foldM step acc' (before ++ release :: after)).
    rewrite (step_None acc b) by (apply Hacc; left). simpl.
    apply NoDup_cons in Hnd as [Hb Hnd]. apply IH; [done|..].
    + intros r Hr. rewrite lookup_insert_ne; [apply Hacc; by right|].
      intros Heq. apply Hb. rewrite Heq. by apply list_elem_of_fmap_2.
    + destruct (decide (Release.Name b = Release.Name release)) as [Heq|Hne].
      * right. rewrite Heq, lookup_insert_eq. by eexists.
      * rewrite lookup_insert_ne by done.
        destruct Hin as [Hin|Hin]; [|by right].
        left. csimpl in Hin. apply elem_of_cons in Hin as [Hin|Hin]; [|done].
        by destruct Hne.
Qed.

(** Without a repeated name the loop returns a table that has every
    release under its name. *)
Lemma mapReleases_loop_Return releases acc :
  NoDup (Release.Name <$> releases) →
  (∀ r, r ∈ releases → acc !! Release.Name r = None) →
  ∃ mapped,
    foldM step acc releases = Return mapped
    ∧ ∀ n r, mapped !! n = Some r ↔
               acc !! n = Some r ∨ (r ∈ releases ∧ Release.Name r = n).
Proof.
  revert acc. induction releases as [|a releases IH]; intros acc Hnd Hacc.
  - exists acc. split; [done|]. intros n r. rewrite elem_of_nil. tauto.
  - change (foldM step acc (a :: releases))
      with (acc' ← step acc a; foldM step acc' releases).
    rewrite (step_None acc a) by (apply Hacc; left). simpl.
    csimpl in Hnd. apply NoDup_cons in Hnd as [Ha Hnd].
    destruct (IH (<[Release.Name a := a]> acc) Hnd) as (mapped & Hm & Hlook).
    + intros r Hr. rewrite lookup_insert_ne; [apply Hacc; by right|].
      intros Heq. apply Ha. rewrite Heq. by apply list_elem_of_fmap_2.
    + exists mapped. split; [done|]. intros n r. rewrite Hlook, elem_of_cons.
      destruct (decide (Release.Name a = n)) as [<-|Hne].
      * rewrite lookup_insert_eq, (Hacc a) by left. split.
        -- intros [[= <-]|[Hr Hn]]; [by right; split; [left|]|].
           right. split; [by right|done].
        -- intros [|[[->|Hr] Hn]]; [done|by left|by right].
      * rewrite lookup_insert_ne by done. split.
        -- intros [|[Hr Hn]]; [by left|]. right. split; [by right|done].
        -- intros [|[[->|Hr] Hn]]; [by left|done|by right].
Qed.

Lemma mapReleases_eq releases : mapReleases releases = foldM step ∅ releases.
Proof. reflexivity. Qed.

(** A list with a repeated name has a first release that repeats the
    name of an earlier one. *)
Lemma first_repeated (releases : list Release.t) :
  ¬ NoDup (Release.Name <$> releases) →
  ∃ before release after,
    releases = before ++ release :: after
    ∧ NoDup (Release.Name <$> before)
    ∧ Release.Name release ∈ Release.Name <$> before.
Proof.
  induction releases as [|x releases IH] using rev_ind; intros Hdup.
  { destruct Hdup. constructor. }
  destruct (decide (NoDup (Release.Name <$> releases))) as [Hnd|Hnd].
  - exists releases, x, []. split_and!; [done..|].
    destruct (decide (Release.Name x ∈ Release.Name <$> releases)); [done|].
    destruct Hdup. rewrite fmap_app. apply NoDup_app. split_and!; [done| |].
    + intros k Hk [->|[]%elem_of_nil]%elem_of_cons. done.
    + apply NoDup_singleton.
  - destruct (IH Hnd) as (before & release & after & -> & Hb & Hin).
    exists before, release, (after ++ [x]). split_and!; [|done..].
    by rewrite <- app_assoc.
Qed.

End release_table.

(** C6 (amended).  When the manifest file can be read and two of the
    releases have the same name, [LoadRoleManifest] returns no manifest
    but the error "release ... has been loaded more than once" that names
    the first release repeating the name of an earlier one.  It does so
    whatever the file holds and whatever the decoder would make of it:
    the document is not parsed and no role is filtered, resolved or
    merged. *)
Theorem LoadRoleManifest_release_loaded_twice
    (rng : maps.Range) (dec : yaml.Decoder) (fs : gmap string string)
    (manifestFilePath : string) (releases : list Release.t)
    (contents : string) :
  fs !! manifestFilePath = Some contents →
  ¬ NoDup (Release.Name <$> releases) →
  ∃ before release after,
    releases = before ++ release :: after
    ∧ NoDup (Release.Name <$> before)
    ∧ Release.Name release ∈ Release.Name <$> before
    ∧ LoadRoleManifest fs manifestFilePath releases
      = Fail (Errorf ("Error - release " +:+ Release.Name release
                      +:+ " has been loaded more than once")).
Proof.
  intros Hfile Hdup.
  destruct (first_repeated releases Hdup) as (before & release & after & -> & Hnd & Hin).
  exists before, release, after. split_and!; [done..|].
  unfold LoadRoleManifest, ReadFile. rewrite Hfile. simpl.
  rewrite mapReleases_eq.
  rewrite (mapReleases_loop_Fail before release after ∅ Hnd); [done| |by left].
  intros r _. apply lookup_empty.
Qed.

Section release_table_examples.

#[local] Existing Instance example.rng.
#[local] Existing Instance example_loader.dec.

Lemma torRelease_twice :
  ¬ NoDup (Release.Name <$> [example_loader.torRelease; example_loader.torRelease]).
Proof. intros [H _]%NoDup_cons. apply H. left. Qed.

Lemma LoadRoleManifest_release_loaded_twice_witness :
  example_loader.fs !! "/deploy/roles.yml"
    = Some "roles: [myrole, dashboard (docker), hostname-task (bosh-task)]"
  ∧ ¬ NoDup (Release.Name <$>
               [example_loader.torRelease; example_loader.torRelease])
  ∧ LoadRoleManifest example_loader.fs "/deploy/roles.yml"
      [example_loader.torRelease; example_loader.torRelease]
    = Fail (Errorf "Error - release tor has been loaded more than once")
  ∧ ∃ before release after,
      [example_loader.torRelease; example_loader.torRelease]
        = before ++ release :: after
      ∧ NoDup (Release.Name <$> before)
      ∧ Release.Name release ∈ Release.Name <$> before
      ∧ LoadRoleManifest example_loader.fs "/deploy/roles.yml"
          [example_loader.torRelease; example_loader.torRelease]
        = Fail (Errorf ("Error - release " +:+ Release.Name release
                        +:+ " has been loaded more than once")).
Proof.
  assert (example_loader.fs !! "/deploy/roles.yml"
          = Some "roles: [myrole, dashboard (docker), hostname-task (bosh-task)]")
    as Hfile by (vm_compute; reflexivity).
  split_and!; [exact Hfile|exact torRelease_twice|vm_compute; reflexivity|].
  exact (LoadRoleManifest_release_loaded_twice _ _ _ _ _ _ Hfile torRelease_twice).
Defined.

(** C6, as stated: every list with a repeated release name gives the
    error "loaded more than once".  The manifest file is read before the
    releases are looked at; when it cannot be read the error is the one of
    the read. *)
Lemma LoadRoleManifest_unreadable_before_releases :
  example_loader.fs !! "/deploy/none.yml" = None
  ∧ ¬ NoDup (Release.Name <$>
               [example_loader.torRelease; example_loader.torRelease])
  ∧ LoadRoleManifest example_loader.fs "/deploy/none.yml"
      [example_loader.torRelease; example_loader.torRelease]
    = Fail (PathError "open" "/deploy/none.yml").
Proof.
  split_and!; [vm_compute; reflexivity|exact torRelease_twice|vm_compute; reflexivity].
Qed.

End release_table_examples.

(** ** Resolving the job references *)










Section resolve.

Context {rng : maps.Range}.
Variables (releases : list Release.t) (mapped : gmap string Release.t).
Hypothesis Hmapped :
  ∀ n r, mapped !! n = Some r ↔ r ∈ releases ∧ Release.Name r = n.





End resolve.


Section resolve_examples.

#[local] Existing Instance example.rng.
#[local] Existing Instance example_loader.dec.




End resolve_examples.

(** ** Further properties of release.go: lookups *)



(** ** Further properties of the role manifest loader *)

(** Copying the entries of a map into another gives their union, the
    copied entries winning. *)
Lemma fold_insert_union {V} (l : list (string * V)) (dst : gmap string V) :
  NoDup l.*1 →
  fold_left (λ d kv, <[kv.1 := kv.2]> d) l dst = list_to_map l ∪ dst.
Proof.
  revert dst. induction l as [|[k v] l IH]; intros dst Hnd; simpl.
  { by rewrite (left_id_L ∅ (∪)). }
  csimpl in Hnd. apply NoDup_cons in Hnd as [Hk Hnd].
  rewrite IH by done. rewrite <- insert_union_l.
  by rewrite insert_union_r by (by apply not_elem_of_list_to_map_1).
Qed.

Lemma copyInto_union {rng : maps.Range} {V} (src dst : gmap string V) :
  maps.Correct rng → maps.copyInto src dst = src ∪ dst.
Proof.
  intros Hrng. unfold maps.copyInto.
  assert (NoDup (maps.range src).*1) as Hnd.
  { rewrite (Hrng V src). apply NoDup_fst_map_to_list. }
  rewrite fold_insert_union by done.
  by rewrite (list_to_map_proper _ _ Hnd (Hrng V src)), list_to_map_to_list.
Qed.





(** What the table of releases holds when the first loop of the loader
    has gone through. *)
Lemma mapReleases_Return releases mapped :
  mapReleases releases = Return mapped →
  NoDup (Release.Name <$> releases)
  ∧ ∀ n r, mapped !! n = Some r ↔ r ∈ releases ∧ Release.Name r = n.
Proof.
  intros Hm. rewrite mapReleases_eq in Hm.
  destruct (decide (NoDup (Release.Name <$> releases))) as [Hnd|Hdup].
  - split; [done|].
    destruct (mapReleases_loop_Return releases ∅ Hnd) as (mapped' & Hm' & Hlook).
    { intros r _. apply lookup_empty. }
    rewrite Hm' in Hm. injection Hm as <-.
    intros n r. rewrite Hlook, lookup_empty.
    split; [intros [[=]|H]; exact H|intros H; right; exact H].
  - destruct (first_repeated releases Hdup)
      as (before & release & after & -> & Hnd & Hin).
    rewrite (mapReleases_loop_Fail before release after ∅ Hnd) in Hm;
      [done| |by left].
    intros r _. apply lookup_empty.
Qed.

Section loader_more.

Context {rng : maps.Range} {dec : yaml.Decoder}.
Variable fs : gmap string string.

Lemma resolveJob_Return_inv (releases : list Release.t) mapped role ref job :
  (∀ n r, mapped !! n = Some r ↔ r ∈ releases ∧ Release.Name r = n) →
  resolveJob mapped role ref = Return job →
  ∃ release,
    release ∈ releases ∧ Release.Name release = roleJob.ReleaseName ref
    ∧ LookupJob release (roleJob.Name ref) = Return job.
Proof.
  intros Hmapped. unfold resolveJob.
  destruct (mapped !! roleJob.ReleaseName ref) as [release|] eqn:Hr; [|done].
  apply Hmapped in Hr as [Hin Hname]. intros Hjob. by exists release.
Qed.

Lemma resolveRole_Return_inv mapped manifest role role' :
  resolveRole mapped manifest role = Return role' →
  ∃ jobs global,
    forEach (resolveJob mapped role) (Role.JobNameList role) = Return jobs
    ∧ manifest.2 = Some global
    ∧ role' =
        Role.mk (Role.Name role) jobs (Role.EnvironScripts role)
          (Role.Scripts role) (Role.PostConfigScripts role) (Role.Type_ role)
          (Role.JobNameList role)
          (Some (configuration.mk
                   (Some (maps.copyInto (templatesOf (Role.Configuration role))
                            (maps.copyInto (templatesOf (Some global)) ∅)))))
          (Some manifest).
Proof.
  unfold resolveRole.
  destruct (forEach _ _) as [jobs| |]; simpl; [|done..].
  unfold calculateRoleConfigurationTemplates. simpl.
  destruct manifest as [path [global|]]; simpl; [|done].
  intros [= <-]. exists jobs, global. split_and!; [done..|].
  unfold templatesOf. by destruct (Role.Configuration role) as [[[t|]]|].
Qed.



(** The steps of [LoadRoleManifest], when it returns a manifest. *)
Lemma LoadRoleManifest_Return_inv manifestFilePath releases m :
  LoadRoleManifest fs manifestFilePath releases = Return m →
  ∃ contents mapped parsed roles,
    fs !! manifestFilePath = Some contents
    ∧ mapReleases releases = Return mapped
    ∧ yaml.Unmarshal contents = Return parsed
    ∧ forEach (resolveRole mapped
                 (manifestFilePath,
                  Some (configuration.mk (Some (templatesOf parsed.2)))))
              (filter keptType parsed.1) = Return roles
    ∧ m = RoleManifest.mk roles
            (Some (configuration.mk (Some (templatesOf parsed.2))))
            manifestFilePath.
Proof.
  unfold LoadRoleManifest, ReadFile.
  destruct (fs !! manifestFilePath) as [contents|]; simpl; [|done].
  destruct (mapReleases releases) as [mapped| |]; simpl; [|done..].
  destruct (yaml.Unmarshal contents) as [parsed| |] eqn:Hparsed; simpl; [|done..].
  rewrite removeOtherTypes_all. simpl.
  destruct parsed as [declared [[[t|]]|]]; simpl;
    (destruct (forEach _ _) as [roles| |] eqn:Hroles; simpl; [|done..]);
    intros [= <-]; by eexists contents, mapped, _, roles.
Qed.

End loader_more.

(** X3.  In a manifest that [LoadRoleManifest] returns, the jobs of
    every role answer its job references one for one and in order: each
    job is what [LookupJob] returns for the referenced name in the
    release of the referenced release name. *)
Theorem LoadRoleManifest_jobs_in_order
    (rng : maps.Range) (dec : yaml.Decoder) (fs : gmap string string)
    (manifestFilePath : string) (releases : list Release.t)
    (m : RoleManifest.t) (role : Role.t) :
  LoadRoleManifest fs manifestFilePath releases = Return m →
  role ∈ RoleManifest.Roles m →
  Forall2 (λ ref job,
             ∃ release,
               release ∈ releases
               ∧ Release.Name release = roleJob.ReleaseName ref
               ∧ LookupJob release (roleJob.Name ref) = Return job)
          (Role.JobNameList role) (Role.Jobs role).
Proof.
  intros (contents & mapped & parsed & roles & _ & Hm & _ & Hroles & ->)
    %LoadRoleManifest_Return_inv Hrole.
  simpl in Hrole. apply mapReleases_Return in Hm as [_ Hmapped].
  apply forEach_Return in Hroles.
  apply list_elem_of_lookup in Hrole as [i Hi].
  destruct (Forall2_lookup_r _ _ _ _ _ Hroles Hi) as (declared & _ & Hres).
  apply resolveRole_Return_inv in Hres as (jobs & global & Hjobs & _ & ->).
  simpl. apply forEach_Return in Hjobs.
  eapply Forall2_impl; [exact Hjobs|].
  intros ref job H. exact (resolveJob_Return_inv _ _ _ _ _ Hmapped H).
Qed.

Section loader_more_examples.

#[local] Existing Instance example.rng.
#[local] Existing Instance example_loader.dec.

Lemma LoadRoleManifest_jobs_in_order_witness :
  ∃ m role,
    LoadRoleManifest example_loader.fs "/deploy/roles.yml"
      [example_loader.torRelease] = Return m
    ∧ role ∈ RoleManifest.Roles m
    ∧ Role.JobNameList role
      = [roleJob.mk "tor" "tor"; roleJob.mk "new_hostname" "tor"]
    ∧ Role.Jobs role = [example_loader.tor; example_loader.new_hostname]
    ∧ Forall2 (λ ref job,
                 ∃ release,
                   release ∈ [example_loader.torRelease]
                   ∧ Release.Name release = roleJob.ReleaseName ref
                   ∧ LookupJob release (roleJob.Name ref) = Return job)
              (Role.JobNameList role) (Role.Jobs role).
Proof.
  destruct (LoadRoleManifest example_loader.fs "/deploy/roles.yml"
              [example_loader.torRelease]) as [m| |] eqn:Hm;
    [|vm_compute in Hm; discriminate Hm..].
  destruct (RoleManifest.Roles m) as [|role roles] eqn:Hroles.
  { vm_compute in Hm. injection Hm as <-. discriminate Hroles. }
  assert (role ∈ RoleManifest.Roles m) as Hin by (rewrite Hroles; left).
  exists m, role. split; [reflexivity|]. split; [exact Hin|].
  split; [|split].
  - vm_compute in Hm. injection Hm as <-. injection Hroles as <- _. reflexivity.
  - vm_compute in Hm. injection Hm as <-. injection Hroles as <- _. reflexivity.
  - exact (LoadRoleManifest_jobs_in_order _ _ _ _ _ _ _ Hm Hin).
Defined.

End loader_more_examples.

(** X4.  In a manifest that [LoadRoleManifest] returns, the template
    mapping of the manifest is the one of the document (empty when the
    document has none, never nil); every role points back to the
    manifest, and its template mapping is never nil and holds, for each
    key, the value the role declares and otherwise the value of the
    manifest. *)
Theorem LoadRoleManifest_templates_merged
    (rng : maps.Range) (dec : yaml.Decoder) (fs : gmap string string)
    (manifestFilePath : string) (releases : list Release.t)
    (m : RoleManifest.t) :
  maps.Correct rng →
  LoadRoleManifest fs manifestFilePath releases = Return m →
  ∃ contents parsed,
    fs !! manifestFilePath = Some contents
    ∧ yaml.Unmarshal contents = Return parsed
    ∧ RoleManifest.Configuration m
      = Some (configuration.mk (Some (templatesOf parsed.2)))
    ∧ Forall2 (λ declared loaded,
                 Role.rolesManifest loaded
                 = Some (manifestFilePath, RoleManifest.Configuration m)
                 ∧ ∃ merged,
                     Role.Configuration loaded
                     = Some (configuration.mk (Some merged))
                     ∧ ∀ k, merged !! k =
                              match templatesOf (Role.Configuration declared) !! k with
                              | Some v => Some v
                              | None => templatesOf parsed.2 !! k
                              end)
              (filter keptType parsed.1) (RoleManifest.Roles m).
Proof.
  intros Hrng (contents & mapped & parsed & roles & Hfile & _ & Hparsed & Hroles & ->)
    %LoadRoleManifest_Return_inv.
  exists contents, parsed. split_and!; [done..|]. simpl.
  apply forEach_Return in Hroles.
  eapply Forall2_impl; [exact Hroles|].
  intros declared loaded (jobs & global & _ & [= <-] & ->)%resolveRole_Return_inv.
  simpl. split; [done|]. eexists. split; [done|].
  intros k. rewrite !(copyInto_union _ _ Hrng), (right_id_L ∅ (∪)).
  rewrite lookup_union.
  change (templatesOf (Some (configuration.mk (Some (templatesOf parsed.2)))))
    with (templatesOf parsed.2).
  by destruct (templatesOf (Role.Configuration declared) !! k),
              (templatesOf parsed.2 !! k).
Qed.

Section templates_examples.

#[local] Existing Instance example.rng.
#[local] Existing Instance example_templates.dec.

Lemma LoadRoleManifest_templates_merged_witness :
  maps.Correct example.rng
  ∧ ∃ m,
      LoadRoleManifest example_templates.fs "/deploy/roles.yml"
        [example_loader.torRelease] = Return m
      ∧ (configuredTemplates <$> RoleManifest.Roles m)
        = [Some (<["properties.nats.port" := "4333"]>
                   (<["properties.tor.hostname" := "((HOSTNAME))"]>
                      (<["properties.nats.user" := "((NATS_USER))"]> ∅)));
           Some example_templates.globalTemplates]
      ∧ ∃ contents parsed,
          example_templates.fs !! "/deploy/roles.yml" = Some contents
          ∧ yaml.Unmarshal contents = Return parsed
          ∧ RoleManifest.Configuration m
            = Some (configuration.mk (Some (templatesOf parsed.2)))
          ∧ Forall2 (λ declared loaded,
                       Role.rolesManifest loaded
                       = Some ("/deploy/roles.yml", RoleManifest.Configuration m)
                       ∧ ∃ merged,
                           Role.Configuration loaded
                           = Some (configuration.mk (Some merged))
                           ∧ ∀ k, merged !! k =
                                    match templatesOf (Role.Configuration declared) !! k with
                                    | Some v => Some v
                                    | None => templatesOf parsed.2 !! k
                                    end)
                    (filter keptType parsed.1) (RoleManifest.Roles m).
Proof.
  split; [exact range_map_to_list_Correct|].
  destruct (LoadRoleManifest example_templates.fs "/deploy/roles.yml"
              [example_loader.torRelease]) as [m| |] eqn:Hm;
    [|vm_compute in Hm; discriminate Hm..].
  exists m. split; [reflexivity|]. split.
  - vm_compute in Hm. injection Hm as <-. vm_compute. reflexivity.
  - exact (LoadRoleManifest_templates_merged _ _ _ _ _ _
             range_map_to_list_Correct Hm).
Defined.

End templates_examples.


Section no_panic_examples.

#[local] Existing Instance example.rng.
#[local] Existing Instance example_loader.dec.



End no_panic_examples.



(** ** Further properties of the script signature *)

Section script_paths.

Context {fp : filepath.Impl}.

Lemma GetScriptPaths_loop (r : Role.t) path conf scripts (result : gmap string string) :
  Role.rolesManifest r = Some (path, conf) →
  ∃ result',
    foldM (λ (result : gmap string string) script,
             if filepath.IsAbs script then Return result
             else
               m ← deref (Role.rolesManifest r);
               Return (<[script := filepath.Join (filepath.Dir m.1) script]> result))
          result scripts = Return result'
    ∧ ∀ script,
        result' !! script =
          if decide (script ∈ scripts ∧ filepath.IsAbs script = false)
          then Some (filepath.Join (filepath.Dir path) script)
          else result !! script.
Proof.
  intros Hm. rewrite Hm. clear Hm. revert result.
  induction scripts as [|s scripts IH]; intros result.
  { exists result. split; [done|]. intros script.
    destruct (decide (script ∈ [] ∧ filepath.IsAbs script = false))
      as [[H _]|]; [by apply elem_of_nil in H|done]. }
  cbn [foldM]. destruct (filepath.IsAbs s) eqn:Habs.
  - destruct (IH result) as (result' & Heq & Hlook). exists result'.
    split; [exact Heq|]. intros script. rewrite Hlook.
    destruct (decide (script ∈ scripts ∧ filepath.IsAbs script = false))
      as [[Hin Hrel]|Hno],
      (decide (script ∈ s :: scripts ∧ filepath.IsAbs script = false))
      as [[Hin' Hrel']|Hno']; try done.
    + destruct Hno'. split; [by right|done].
    + apply elem_of_cons in Hin' as [->|Hin']; [congruence|].
      destruct Hno. by split.
  - destruct (IH (<[s := filepath.Join (filepath.Dir path) s]> result))
      as (result' & Heq & Hlook).
    exists result'. split; [exact Heq|]. intros script. rewrite Hlook.
    destruct (decide (script ∈ scripts ∧ filepath.IsAbs script = false))
      as [[Hin Hrel]|Hno],
      (decide (script ∈ s :: scripts ∧ filepath.IsAbs script = false))
      as [[Hin' Hrel']|Hno']; try done.
    + destruct Hno'. split; [by right|done].
    + apply elem_of_cons in Hin' as [->|Hin'].
      * by rewrite lookup_insert_eq.
      * destruct Hno. by split.
    + rewrite lookup_insert_ne; [done|]. intros <-. destruct Hno'.
      split; [by left|done].
Qed.

End script_paths.

(** X7.  For a role that points to its manifest, [GetScriptPaths] maps
    every declared script whose path is not absolute, and nothing else,
    to the path of the script joined to the directory of the manifest
    file; absolute scripts are left out. *)
Theorem GetScriptPaths_relative_scripts
    (fp : filepath.Impl) (r : Role.t) (path : string)
    (conf : option configuration.t) :
  Role.rolesManifest r = Some (path, conf) →
  ∃ paths,
    GetScriptPaths r = Return paths
    ∧ ∀ script,
        paths !! script =
          if decide (script ∈ declaredScripts r ∧ filepath.IsAbs script = false)
          then Some (filepath.Join (filepath.Dir path) script)
          else None.
Proof.
  intros Hm. unfold GetScriptPaths. simpl.
  destruct (GetScriptPaths_loop r path conf (Role.EnvironScripts r) ∅ Hm)
    as (r1 & -> & H1). simpl.
  destruct (GetScriptPaths_loop r path conf (Role.Scripts r) r1 Hm)
    as (r2 & -> & H2). simpl.
  destruct (GetScriptPaths_loop r path conf (Role.PostConfigScripts r) r2 Hm)
    as (r3 & -> & H3). simpl.
  exists r3. split; [done|]. intros script.
  rewrite H3, H2, H1, lookup_empty. unfold declaredScripts.
  destruct (decide (script ∈ Role.PostConfigScripts r
                    ∧ filepath.IsAbs script = false)) as [[Hp ?]|Hp],
    (decide (script ∈ Role.Scripts r
             ∧ filepath.IsAbs script = false)) as [[Hs ?]|Hs],
    (decide (script ∈ Role.EnvironScripts r
             ∧ filepath.IsAbs script = false)) as [[He ?]|He],
    (decide (script ∈ Role.EnvironScripts r ++ Role.Scripts r
                      ++ Role.PostConfigScripts r
             ∧ filepath.IsAbs script = false)) as [[Ha ?]|Ha];
    try done;
    try (destruct Ha; split; [rewrite !elem_of_app; tauto|done]).
  rewrite !elem_of_app in Ha.
  destruct Ha as [Ha|[Ha|Ha]]; [destruct He|destruct Hs|destruct Hp]; by split.
Qed.

Section script_paths_examples.

#[local] Existing Instance example.fp.

Lemma GetScriptPaths_relative_scripts_witness :
  ∃ paths,
    GetScriptPaths
      (Role.mk "myrole" [] [] ["/opt/start.sh"; "myrole.sh"] [] "" [] None
         (Some ("/deploy/roles.yml", None))) = Return paths
    ∧ paths = <["myrole.sh" := "/deploy/myrole.sh"]> ∅
    ∧ ∀ script,
        paths !! script =
          if decide (script ∈ ["/opt/start.sh"; "myrole.sh"]
                     ∧ filepath.IsAbs script = false)
          then Some (filepath.Join (filepath.Dir "/deploy/roles.yml") script)
          else None.
Proof.
  destruct (GetScriptPaths_relative_scripts example.fp
              (Role.mk "myrole" [] [] ["/opt/start.sh"; "myrole.sh"] [] "" [] None
                 (Some ("/deploy/roles.yml", None)))
              "/deploy/roles.yml" None eq_refl) as (paths & Hp & Hlook).
  exists paths. split; [exact Hp|]. split; [|exact Hlook].
  vm_compute in Hp. by injection Hp as <-.
Defined.

End script_paths_examples.

Section script_signature.

Variable fs : gmap string string.

(** The loop of [GetScriptSignatures] over the sorted paths: every file
    adds its path and its content to the hash; the first file that cannot
    be opened ends the loop with the error of [os.Open]. *)
Lemma GetScriptSignatures_loop files hasher :
  (∃ contents,
     Forall2 (λ p c, fs !! p = Some c) files contents
     ∧ foldM (λ hasher filename,
                let hasher := sha1.Write hasher filename in
                f ← ReadFile fs filename;
                Return (sha1.Write hasher f)) hasher files
       = Return (hasher +:+ concatenated (zip_with String.append files contents)))
  ∨ (∃ before p after,
       files = before ++ p :: after
       ∧ Forall (λ q, is_Some (fs !! q)) before
       ∧ fs !! p = None
       ∧ foldM (λ hasher filename,
                  let hasher := sha1.Write hasher filename in
                  f ← ReadFile fs filename;
                  Return (sha1.Write hasher f)) hasher files
         = Fail (PathError "open" p)).
Proof.
  set (step := λ hasher filename,
                 let hasher := sha1.Write hasher filename in
                 f ← ReadFile fs filename;
                 Return (sha1.Write hasher f)).
  revert hasher. induction files as [|p files IH]; intros hasher.
  { left. exists []. split; [constructor|]. simpl. by rewrite sapp_nil_r. }
  change (foldM step hasher (p :: files))
    with (b ← step hasher p; foldM step b files).
  assert (step hasher p =
          match fs !! p with
          | Some c => Return (sha1.Write (sha1.Write hasher p) c)
          | None => Fail (PathError "open" p)
          end) as ->.
  { unfold step, ReadFile. by destruct (fs !! p). }
  destruct (fs !! p) as [c|] eqn:Hp.
  - destruct (IH (sha1.Write (sha1.Write hasher p) c))
      as [(contents & Hall & Heq)|(before & q & after & -> & Hbefore & Hq & Heq)].
    + left. exists (c :: contents). split; [by constructor|].
      etrans; [exact Heq|]. unfold sha1.Write. simpl.
      by rewrite !sapp_assoc.
    + right. exists (p :: before), q, after.
      split_and!; [done|by constructor|done|exact Heq].
  - right. exists [], p, files. split_and!; [done|constructor|done|done].
Qed.

End script_signature.

(** X8.  [GetScriptSignatures] sorts the paths of the role's scripts and
    hashes, path after path in that order, the path and then the content
    of the file.  It fails exactly when one of the files cannot be
    opened, with the error of the first such path in sorted order. *)
Theorem GetScriptSignatures_sorted_files
    (alg : sort.Algorithm) (rng : maps.Range) (fp : filepath.Impl)
    (fs : gmap string string) (r : Role.t) (paths : gmap string string) :
  sort.Correct alg → maps.Correct rng →
  GetScriptPaths r = Return paths →
  ∃ files,
    files ≡ₚ (map_to_list paths).*2
    ∧ StronglySorted String.le files
    ∧ ((∃ contents,
          Forall2 (λ p c, fs !! p = Some c) files contents
          ∧ GetScriptSignatures fs r
            = Return (hex.EncodeToString
                        (sha1.Sum (concatenated
                                     (zip_with String.append files contents)))))
       ∨ (∃ before p after,
            files = before ++ p :: after
            ∧ Forall (λ q, is_Some (fs !! q)) before
            ∧ fs !! p = None
            ∧ GetScriptSignatures fs r = Fail (PathError "open" p))).
Proof.
  intros Halg Hrng Hpaths.
  exists (sort.Strings (map snd (maps.range paths))). split_and!.
  - unfold sort.Strings. rewrite (sort.Sort_Permutation alg Halg).
    change (map snd (maps.range paths)) with ((maps.range paths).*2).
    by rewrite (Hrng _ paths).
  - apply (Ascending_key id), Halg, (key_StrictWeakOrder id).
  - unfold GetScriptSignatures. rewrite Hpaths. simpl.
    destruct (GetScriptSignatures_loop fs
                (sort.Strings (map snd (maps.range paths))) sha1.New)
      as [(contents & Hall & Heq)|(before & p & after & Hfiles & Hbefore & Hp & Heq)].
    + left. exists contents. split; [done|]. simpl in Heq. by rewrite Heq.
    + right. exists before, p, after. split_and!; [done..|].
      simpl in Heq. by rewrite Heq.
Qed.
